(** * csv_plot.background_processor: the window worker

    A shallow embedding of [BackgroundProcessor] (the process that answers
    visible-range requests of the plotting client over a pipe) and the
    properties of its request/response protocol.

    Python floats are IEEE binary64 values, embedded as Rocq's primitive
    floats, so the margin arithmetic is the one the interpreter performs.
    The [datetime] class and the [selector] of [csv_plot.csv] live outside
    the module and enter as parameters of the embedding.
    [datetime.fromtimestamp] is partial: it raises on a timestamp that is
    not a number, is infinite or falls outside the range of the platform or
    of [datetime], and the exception leaves [run]. *)

From Stdlib Require Import List String ZArith Bool PrimFloat Lia.
Import ListNotations.

Set Warnings "-inexact-float".

Open Scope string_scope.
Open Scope list_scope.

(** ** Values *)

(** The classes that are passed around as values of Python's [type]. *)
Inductive pytype : Set := TInt | TFloat | TStr | TDatetime.

(** The exceptions that leave [run]: its own, and those of
    [datetime.fromtimestamp]. *)
Inductive exn : Set :=
| AssertionError (msg : string)
| ValueError (msg : string)
| AttributeError (msg : string)
| OverflowError (msg : string)
| OSError (msg : string).

(** [Selected.Y]: the two down-sampled series of one Y key. *)
Record Y : Set := { mins : list float; maxs : list float }.

(** What the caller puts on the pipe: [None] asks the worker to stop, a pair
    is a visible range, each end being [None] or a timestamp. *)
Definition item : Set := (option float * option float)%type.
Definition message : Set := option item.

(** The pipe, seen from the worker.  One [backlog] is what one turn of the
    outer loop finds: the message the blocking [recv()] returns, then the
    messages for which [poll()] answers [True], in order, up to the moment
    [poll()] answers [False]. *)
Definition backlog : Set := (message * list message)%type.

(** A caller that sends [earlier] and then [it] before the worker looks at
    the pipe again. *)
Definition prefilled (earlier : list item) (it : item) : backlog :=
  match earlier with
  | [] => (Some it, [])
  | e :: es => (Some e, map Some es ++ [Some it])
  end.

Definition messages (b : backlog) : list message := fst b :: snd b.

(** The arguments of the constructor, [connection] apart: the pipe is the
    list of backlogs [run] is given and the [sent] component of the world. *)
Record BackgroundProcessor : Set := {
  dir_path : string;
  x_and_type : string * pytype;
  ys : list string;
  resolution : Z
}.

(** The arguments [selector] is called with. *)
Record selector_args : Set := {
  sel_dir_path : string;
  sel_x_and_type : string * pytype;
  sel_ys_and_types : list (string * pytype);
  sel_resolution : Z
}.

Definition MARGIN : float := 0.2%float.

Definition malformed_msg : string :=
  "`visible_start_float` and `visible_stop_float` must be both set to None or set to a value which is not None".

Definition unpack_msg : string :=
  "not enough values to unpack (expected at least 1, got 0)".

Definition is_none {A : Type} (o : option A) : bool :=
  match o with None => true | Some _ => false end.

(** How the loop of [run] ends: it returns after a stop request, an
    exception leaves it, or it sits in [recv()] with nothing more to come. *)
Inductive exit : Set := Returned | Raised (e : exn) | Blocked.

(** What the worker takes from the interpreter: the class
    [datetime.datetime] with its two conversions, and [__debug__] ([assert]
    statements are executed unless the interpreter runs with [-O]).
    [fromtimestamp] returns the datetime or the exception it raises
    ([ValueError], [OverflowError] or [OSError]). *)
Class Interpreter : Type := {
  datetime : Type;
  fromtimestamp : float -> exn + datetime;
  timestamp : datetime -> float;
  debug : bool
}.

Section Worker.

Context {py : Interpreter}.

(** An X value, as the selector yields it. *)
Inductive xval : Type :=
| XInt (z : Z)
| XFloat (f : float)
| XDatetime (d : datetime).

Definition isinstance_datetime (x : xval) : bool :=
  match x with XDatetime _ => true | _ => false end.

(** Whether a value is an instance of the class [t]. *)
Definition isinstance (x : xval) (t : pytype) : bool :=
  match x, t with
  | XInt _, TInt => true
  | XFloat _, TFloat => true
  | XDatetime _, TDatetime => true
  | _, _ => false
  end.

(** [Selected]: what a subscription of the selector returns. *)
Record Selected : Type := {
  xs : list xval;
  name_to_y : list (string * Y)
}.

(** The two subscriptions [run] makes: [sel[:]] and [sel[start:stop]]. *)
Inductive query : Type :=
| SelectAll
| SelectRange (start stop : xval).

(** What the worker puts on the pipe: [None] acknowledges the stop
    request, a pair answers a visible range. *)
Definition response : Type := option (list xval * list (string * Y)).

(** The effects of [run], in order of occurrence. *)
Record world : Type := {
  opened : list selector_args;
  queried : list query;
  sent : list response
}.

Definition open_selector (a : selector_args) (w : world) : world :=
  {| opened := opened w ++ [a]; queried := queried w; sent := sent w |}.

Definition ask (q : query) (w : world) : world :=
  {| opened := opened w; queried := queried w ++ [q]; sent := sent w |}.

Definition send (r : response) (w : world) : world :=
  {| opened := opened w; queried := queried w; sent := sent w ++ [r] |}.

(** [x.timestamp()]: only a [datetime] has the method. *)
Definition call_timestamp (x : xval) : exn + xval :=
  match x with
  | XDatetime d => inr (XFloat (timestamp d))
  | XInt _ => inl (AttributeError "'int' object has no attribute 'timestamp'")
  | XFloat _ => inl (AttributeError "'float' object has no attribute 'timestamp'")
  end.

(** [[x.timestamp() for x in xs]] *)
Fixpoint timestamps (l : list xval) : exn + list xval :=
  match l with
  | [] => inr []
  | x :: rest =>
      match call_timestamp x with
      | inl e => inl e
      | inr t =>
          match timestamps rest with
          | inl e => inl e
          | inr ts => inr (t :: ts)
          end
      end
  end.

(** Lines 133-139: [first_x, *_ = selected.xs] and the choice of [xs]. *)
Definition normalize_xs (l : list xval) : exn + list xval :=
  match l with
  | [] => inl (ValueError unpack_msg)
  | first_x :: _ =>
      if isinstance_datetime first_x then timestamps l else inr l
  end.

(** Lines 105-131: from the surviving item to the subscription. *)
Definition translate (it : item) : exn + query :=
  let '(visible_start_float, visible_stop_float) := it in
  if debug && xorb (is_none visible_start_float) (is_none visible_stop_float)
  then inl (AssertionError malformed_msg)
  else
    match visible_start_float, visible_stop_float with
    | None, None => inr SelectAll
    | Some visible_start_float, Some visible_stop_float =>
        let visible_range := (visible_stop_float - visible_start_float)%float in
        let visible_range_with_margin := (MARGIN * visible_range)%float in
        let start_float := (visible_start_float - visible_range_with_margin)%float in
        let stop_float := (visible_stop_float + visible_range_with_margin)%float in
        match fromtimestamp start_float with
        | inl e => inl e
        | inr start =>
            match fromtimestamp stop_float with
            | inl e => inl e
            | inr stop => inr (SelectRange (XDatetime start) (XDatetime stop))
            end
        end
    | _, _ => inl (ValueError malformed_msg)
    end.

(** Lines 98-103: the inner loop.  [None] when a stop request is met. *)
Fixpoint drain (it : item) (waiting : list message) : option item :=
  match waiting with
  | [] => Some it
  | None :: _ => None
  | Some it' :: rest => drain it' rest
  end.

Section WithSelector.

(** The selector [run] has opened. *)
Variable sel : query -> Selected.

(** Lines 105-141: the answer to the surviving item.  [None] when the
    end of the loop body is reached. *)
Definition answer (it : item) (w : world) : option exn * world :=
  match translate it with
  | inl e => (Some e, w)
  | inr q =>
      let w := ask q w in
      let selected := sel q in
      match normalize_xs (xs selected) with
      | inl e => (Some e, w)
      | inr xs' => (None, send (Some (xs', name_to_y selected)) w)
      end
  end.

(** The three ways through lines 105-141. *)
Inductive answered (it : item) (w : world) : option exn * world -> Prop :=
| answered_untranslated e :
    translate it = inl e ->
    answered it w (Some e, w)
| answered_unnormalized q e :
    translate it = inr q ->
    normalize_xs (xs (sel q)) = inl e ->
    answered it w (Some e, ask q w)
| answered_sent q xs' :
    translate it = inr q ->
    normalize_xs (xs (sel q)) = inr xs' ->
    answered it w (None, send (Some (xs', name_to_y (sel q))) (ask q w)).

(** One turn of [while True].  [None] when the loop goes on. *)
Definition iteration (b : backlog) (w : world) : option exit * world :=
  match fst b with
  | None => (Some Returned, send None w)
  | Some it =>
      match drain it (snd b) with
      | None => (Some Returned, send None w)
      | Some it =>
          match answer it w with
          | (Some e, w) => (Some (Raised e), w)
          | (None, w) => (None, w)
          end
      end
  end.

(** Lines 86-141. *)
Fixpoint loop (inbox : list backlog) (w : world) : exit * world :=
  match inbox with
  | [] => (Blocked, w)
  | b :: later =>
      match iteration b w with
      | (Some ex, w) => (ex, w)
      | (None, w) => loop later w
      end
  end.

End WithSelector.

(** The selector of [csv_plot.csv], as a function of its arguments. *)
Variable selector : selector_args -> query -> Selected.

(** Lines 80-85. *)
Definition selector_call (self : BackgroundProcessor) : selector_args :=
  {| sel_dir_path := dir_path self;
     sel_x_and_type := x_and_type self;
     sel_ys_and_types := map (fun y => (y, TFloat)) (ys self);
     sel_resolution := resolution self |}.

Definition run (self : BackgroundProcessor) (inbox : list backlog) (w : world)
  : exit * world :=
  let a := selector_call self in
  loop (selector a) inbox (open_selector a w).

End Worker.

(** ** A concrete interpreter and the selector of the class docstring *)

(** Datetimes kept as their POSIX timestamp, on a 64-bit Linux in UTC.
    [fromtimestamp] raises as the interpreter does there: on a timestamp
    that is not a number, on one that does not fit [time_t], on one
    [localtime] cannot break down, and on one outside the years 1 to 9999
    (the message of the last one names the year, which is left out here);
    it returns the timestamp otherwise.  [timestamp] is the identity. *)
Definition posix_fromtimestamp (t : float) : exn + float :=
  if PrimFloat.is_nan t
  then inl (ValueError "cannot convert float NaN to integer")
  else if PrimFloat.is_infinity t
  then inl (OverflowError "cannot convert float infinity to integer")
  else if negb (PrimFloat.leb (-9223372036854775808) t
                && PrimFloat.ltb t 9223372036854775808)
  then inl (OverflowError "timestamp out of range for platform time_t")
  else if negb (PrimFloat.leb (-67768040609740800) t
                && PrimFloat.ltb t 67768036191676800)
  then inl (OSError "[Errno 75] Value too large for defined data type")
  else if negb (PrimFloat.leb (-62135596800) t
                && PrimFloat.ltb t 253402300800)
  then inl (ValueError "year is out of range")
  else inr t.

Definition posix (dbg : bool) : Interpreter :=
  {| datetime := float; fromtimestamp := posix_fromtimestamp;
     timestamp := fun d => d; debug := dbg |}.

(** A selector over an in-memory table.  The rows of a range are those whose
    key is a datetime within the two bounds, the upper one excluded. *)
Definition in_range (dbg : bool) (start stop x : xval (py := posix dbg)) : bool :=
  match start, stop, x with
  | XDatetime a, XDatetime b, XDatetime d => PrimFloat.leb a d && PrimFloat.ltb d b
  | _, _, _ => false
  end.

Fixpoint pick {A : Type} (mask : list bool) (l : list A) : list A :=
  match mask, l with
  | true :: mask, x :: l => x :: pick mask l
  | false :: mask, _ :: l => pick mask l
  | _, _ => []
  end.

Definition table_selector (dbg : bool) (t : Selected (py := posix dbg))
  (q : query (py := posix dbg)) : Selected (py := posix dbg) :=
  match q with
  | SelectAll => t
  | SelectRange start stop =>
      let mask := map (in_range dbg start stop) (xs t) in
      {| xs := pick mask (xs t);
         name_to_y :=
           map (fun ky => (fst ky, {| mins := pick mask (mins (snd ky));
                                      maxs := pick mask (maxs (snd ky)) |}))
               (name_to_y t) |}
  end.

(** The series of the class docstring: X key ["a"], of type [int]. *)
Definition docstring_ys : list (string * Y) :=
  [("b", {| mins := [2; 6; 10; 14; 18]; maxs := [2; 6; 10; 14; 18] |});
   ("d", {| mins := [4; 8; 12; 16; 20]; maxs := [4; 8; 12; 16; 20] |})]%float.

Definition docstring_table {py : Interpreter} : Selected :=
  {| xs := [XInt 1; XInt 5; XInt 9; XInt 13; XInt 17];
     name_to_y := docstring_ys |}.

Definition docstring_processor : BackgroundProcessor :=
  {| dir_path := "dir_path"; x_and_type := ("a", TInt); ys := ["b"; "d"];
     resolution := 100 |}.

(** The datetime whose timestamp is [t]. *)
Definition at_time (dbg : bool) (t : float) : xval (py := posix dbg) :=
  XDatetime (py := posix dbg) t.

(** The same series over a datetime key. *)
Definition datetime_table (dbg : bool) : Selected (py := posix dbg) :=
  {| xs := map (at_time dbg) [1; 5; 9; 13; 17]%float;
     name_to_y := docstring_ys |}.


(** A table whose keys are a datetime, then a float. *)
Definition mixed_table (dbg : bool) : Selected (py := posix dbg) :=
  {| xs := [at_time dbg 1; XFloat 5]%float;
     name_to_y := [("b", {| mins := [2; 6]; maxs := [2; 6] |})]%float |}.


Definition no_effect {py : Interpreter} : world :=
  {| opened := []; queried := []; sent := [] |}.

(** ** What the specification calls normalization *)




(** A response is a stop acknowledgement or carries at least one X value. *)
Definition ack_or_nonempty {py : Interpreter} (r : response) : Prop :=
  match r with
  | None => True
  | Some (xs', _) => xs' <> []
  end.

(** The answer [r] is the normalized result of the subscription [q]. *)
Definition answers {py : Interpreter} (sel : query -> Selected) (q : query)
  (r : list xval * list (string * Y)) : Prop :=
  normalize_xs (xs (sel q)) = inr (fst r) /\ snd r = name_to_y (sel q).

(** A subscription is the full one or a range between two datetimes. *)
Definition datetime_bounds {py : Interpreter} (q : query) : Prop :=
  match q with
  | SelectAll => True
  | SelectRange (XDatetime _) (XDatetime _) => True
  | SelectRange _ _ => False
  end.

(** A backlog of requests, given by the superseded ones and the last. *)
Definition backlog_of (p : list item * item) : backlog :=
  prefilled (fst p) (snd p).

(** The backlog reduced to its last request. *)
Definition last_only (p : list item * item) : backlog :=
  prefilled [] (snd p).

(** ** The inner loop *)

Section Protocol.

Context {py : Interpreter}.
Variable sel : query -> Selected.

Lemma drain_requests (it0 : item) (mid : list item) (it : item) :
  drain it0 (map Some mid ++ [Some it]) = Some it.
Proof.
  revert it0. induction mid as [|m mid IH]; intros it0; simpl.
  - reflexivity.
  - apply IH.
Qed.

Lemma drain_stop (it : item) (waiting : list message) :
  In None waiting -> drain it waiting = None.
Proof.
  revert it. induction waiting as [|m waiting IH]; intros it Hin.
  - destruct Hin.
  - destruct m as [it'|]; simpl.
    + apply IH. destruct Hin as [Heq|Hin]; [discriminate Heq | exact Hin].
    + reflexivity.
Qed.

Lemma drain_survivor (it : item) (waiting : list message) (it' : item) :
  drain it waiting = Some it' ->
  ~ In None waiting /\ last (Some it :: waiting) None = Some it'.
Proof.
  revert it. induction waiting as [|m waiting IH]; intros it Hd.
  - simpl in Hd. split; [intros [] | exact Hd].
  - destruct m as [it1|]; simpl in Hd; [|discriminate Hd].
    destruct (IH it1 Hd) as [Hno Hlast]. split.
    + intros [Heq|Hin]; [discriminate Heq | exact (Hno Hin)].
    + exact Hlast.
Qed.

Lemma iteration_prefilled (earlier : list item) (it : item) (w : world) :
  iteration sel (prefilled earlier it) w = iteration sel (Some it, []) w.
Proof.
  destruct earlier as [|e es]; [reflexivity|].
  unfold iteration, prefilled; cbn [fst snd].
  rewrite drain_requests. reflexivity.
Qed.

(** ** The answer to the surviving item *)

Lemma translate_two_sided (a b : float) :
  translate (Some a, Some b) =
    match fromtimestamp (a - MARGIN * (b - a)) with
    | inl e => inl e
    | inr start =>
        match fromtimestamp (b + MARGIN * (b - a)) with
        | inl e => inl e
        | inr stop => inr (SelectRange (XDatetime start) (XDatetime stop))
        end
    end.
Proof. unfold translate; simpl. destruct debug; reflexivity. Qed.

Lemma translate_bounded (a b : float) (start stop : datetime) :
  fromtimestamp (a - MARGIN * (b - a)) = inr start ->
  fromtimestamp (b + MARGIN * (b - a)) = inr stop ->
  translate (Some a, Some b) =
    inr (SelectRange (XDatetime start) (XDatetime stop)).
Proof. intros Ha Hb. rewrite translate_two_sided, Ha, Hb. reflexivity. Qed.

Lemma translate_unbounded : translate (None, None) = inr SelectAll.
Proof. unfold translate; simpl. destruct debug; reflexivity. Qed.

Lemma translate_one_sided (it : item) :
  is_none (fst it) <> is_none (snd it) ->
  translate it =
    inl (if debug then AssertionError malformed_msg else ValueError malformed_msg).
Proof.
  destruct it as [[a|] [b|]]; simpl; intros H;
    try (exfalso; apply H; reflexivity);
    unfold translate; simpl; destruct debug; reflexivity.
Qed.

Lemma answer_answered (it : item) (w : world) :
  answered sel it w (answer sel it w).
Proof.
  unfold answer.
  destruct (translate it) as [e|q] eqn:Ht.
  - now apply answered_untranslated.
  - destruct (normalize_xs (xs (sel q))) as [e|xs'] eqn:Hn.
    + now apply answered_unnormalized with (q := q).
    + now apply answered_sent.
Qed.


Lemma timestamps_length (l ts : list xval) :
  timestamps l = inr ts -> List.length ts = List.length l.
Proof.
  revert ts. induction l as [|x l IH]; simpl; intros ts H.
  - injection H as <-. reflexivity.
  - destruct (call_timestamp x) as [e|t]; [discriminate H|].
    destruct (timestamps l) as [e|ts'] eqn:Hl; [discriminate H|].
    injection H as <-. simpl. f_equal. now apply IH.
Qed.

Lemma normalize_xs_nonempty (l xs' : list xval) :
  normalize_xs l = inr xs' -> xs' <> [].
Proof.
  destruct l as [|x l]; unfold normalize_xs; [discriminate|].
  destruct (isinstance_datetime x); intros H.
  - apply timestamps_length in H. destruct xs'; [discriminate H | discriminate].
  - injection H as <-. discriminate.
Qed.


(** ** One turn of the outer loop *)

Lemma iteration_single (it : item) (w : world) :
  iteration sel (Some it, []) w =
    match answer sel it w with
    | (Some e, w') => (Some (Raised e), w')
    | (None, w') => (None, w')
    end.
Proof. reflexivity. Qed.

Lemma iteration_stop (b : backlog) (w : world) :
  In None (messages b) ->
  iteration sel b w = (Some Returned, send None w).
Proof.
  destruct b as [m waiting]. unfold messages, iteration; cbn [fst snd].
  intros [Heq|Hin].
  - subst m. reflexivity.
  - destruct m as [it|]; [|reflexivity].
    rewrite (drain_stop it waiting Hin). reflexivity.
Qed.

Lemma iteration_survivor (b : backlog) (w : world) :
  In None (messages b) \/
  exists it, ~ In None (messages b) /\ last (messages b) None = Some it /\
             iteration sel b w = iteration sel (Some it, []) w.
Proof.
  destruct b as [m waiting]. unfold messages; cbn [fst snd].
  destruct m as [it|]; [|left; now left].
  destruct (drain it waiting) as [it'|] eqn:Hd.
  - right. exists it'. destruct (drain_survivor it waiting it' Hd) as [Hno Hlast].
    split; [|split].
    + intros [Heq|Hin]; [discriminate Heq | exact (Hno Hin)].
    + exact Hlast.
    + unfold iteration; cbn [fst snd]. rewrite Hd. reflexivity.
  - left. right. revert it Hd.
    induction waiting as [|m waiting IH]; intros it Hd; [discriminate Hd|].
    destruct m as [it1|]; [right; exact (IH it1 Hd) | now left].
Qed.

Lemma iteration_not_blocked (b : backlog) (w : world) :
  fst (iteration sel b w) <> Some Blocked.
Proof.
  destruct (iteration_survivor b w) as [Hstop|(it & _ & _ & Hit)].
  - rewrite (iteration_stop b w Hstop). discriminate.
  - rewrite Hit, iteration_single.
    destruct (answer sel it w) as [[e|] w']; discriminate.
Qed.

(** ** The whole loop *)

Lemma loop_cons (b : backlog) (later : list backlog) (w : world) :
  loop sel (b :: later) w =
    match iteration sel b w with
    | (Some ex, w') => (ex, w')
    | (None, w') => loop sel later w'
    end.
Proof. reflexivity. Qed.

Lemma loop_app (pre post : list backlog) (w : world) :
  fst (loop sel pre w) = Blocked ->
  loop sel (pre ++ post) w = loop sel post (snd (loop sel pre w)).
Proof.
  revert w. induction pre as [|b pre IH]; intros w H; [reflexivity|].
  rewrite <- app_comm_cons, !loop_cons in *.
  pose proof (iteration_not_blocked b w) as Hnb.
  destruct (iteration sel b w) as [[ex|] w'].
  - simpl in H, Hnb. subst ex. now elim Hnb.
  - now apply IH.
Qed.

Lemma loop_effects (inbox : list backlog) (w : world) :
  opened (snd (loop sel inbox w)) = opened w /\
  exists rs,
    Forall (fun r => fst r <> []) rs /\
    sent (snd (loop sel inbox w)) =
      sent w ++ map Some rs ++
      match fst (loop sel inbox w) with Returned => [None] | _ => [] end.
Proof.
  revert w. induction inbox as [|b later IH]; intros w.
  - split; [reflexivity|]. exists []. split; [constructor|].
    simpl. now rewrite app_nil_r.
  - rewrite loop_cons.
    destruct (iteration_survivor b w) as [Hstop|(it & _ & _ & Hit)].
    + rewrite (iteration_stop b w Hstop).
      split; [reflexivity|]. exists []. split; [constructor | reflexivity].
    + rewrite Hit, iteration_single.
      destruct (answer_answered it w) as [e _|q e _ _|q xs' _ Hn].
      * split; [reflexivity|]. exists []. split; [constructor|].
        simpl. now rewrite app_nil_r.
      * split; [reflexivity|]. exists []. split; [constructor|].
        simpl. now rewrite app_nil_r.
      * destruct (IH (send (Some (xs', name_to_y (sel q))) (ask q w)))
          as [Hop (rs & Hrs & Hsent)].
        split; [exact Hop|].
        exists ((xs', name_to_y (sel q)) :: rs). split.
        -- constructor; [|exact Hrs].
           exact (normalize_xs_nonempty _ _ Hn).
        -- rewrite Hsent. simpl. now rewrite <- app_assoc.
Qed.

Lemma loop_empty_xs (earlier : list item) (it : item) (q : query)
  (later : list backlog) (w : world) :
  translate it = inr q ->
  xs (sel q) = [] ->
  loop sel (prefilled earlier it :: later) w =
    (Raised (ValueError unpack_msg), ask q w).
Proof.
  intros Ht Hxs.
  rewrite loop_cons, iteration_prefilled, iteration_single.
  unfold answer. rewrite Ht, Hxs. reflexivity.
Qed.

Lemma loop_one (b : backlog) (w : world) :
  snd (loop sel [b] w) = snd (iteration sel b w).
Proof.
  rewrite loop_cons. destruct (iteration sel b w) as [[ex|] w']; reflexivity.
Qed.

Lemma queried_bounded (earlier : list item) (a b : float) (w : world) :
  queried (snd (iteration sel (prefilled earlier (Some a, Some b)) w)) =
    queried w ++
    match fromtimestamp (a - MARGIN * (b - a)),
          fromtimestamp (b + MARGIN * (b - a)) with
    | inr start, inr stop => [SelectRange (XDatetime start) (XDatetime stop)]
    | _, _ => []
    end.
Proof.
  rewrite iteration_prefilled, iteration_single.
  unfold answer. rewrite translate_two_sided.
  destruct (fromtimestamp (a - MARGIN * (b - a))) as [e|start];
    [simpl; now rewrite app_nil_r|].
  destruct (fromtimestamp (b + MARGIN * (b - a))) as [e|stop];
    [simpl; now rewrite app_nil_r|].
  destruct (normalize_xs _); reflexivity.
Qed.


End Protocol.

(** ** The properties of the protocol *)

Section Claims.

Context {py : Interpreter}.
Variable sel : query -> Selected.
Variable selector : selector_args -> query -> Selected.

(** C1, latest-wins coalescing.  A backlog of requests has the effect of its
    last request alone, whatever was sent before it; and whatever the
    backlog, one turn of the loop either asks the selector nothing or asks
    it the one subscription of the last message of the backlog (then a
    request, the backlog holding no stop request), and it sends at most one
    response. *)
Theorem latest_wins (earlier : list item) (it : item) (b : backlog) (w : world) :
  iteration sel (prefilled earlier it) w = iteration sel (prefilled [] it) w /\
  (queried (snd (iteration sel b w)) = queried w \/
   exists it' q,
     last (messages b) None = Some it' /\ ~ In None (messages b) /\
     translate it' = inr q /\
     queried (snd (iteration sel b w)) = queried w ++ [q]) /\
  (sent (snd (iteration sel b w)) = sent w \/
   exists r, sent (snd (iteration sel b w)) = sent w ++ [r]).
Proof.
  split; [apply iteration_prefilled|].
  destruct (iteration_survivor sel b w) as [Hstop|(it' & Hno & Hlast & Hit)].
  - rewrite (iteration_stop sel b w Hstop). split; [now left|].
    right. now exists None.
  - rewrite Hit, iteration_single.
    destruct (answer_answered sel it' w) as [e _|q e Ht _|q xs' Ht _].
    + split; now left.
    + split; [|now left]. right. now exists it', q.
    + split.
      * right. now exists it', q.
      * right. now exists (Some (xs', name_to_y (sel q))).
Qed.

(** C2, as amended.  The last request of a backlog being the bounded range
    from [a] to [b], and [datetime.fromtimestamp] converting the two
    expanded bounds [a - 0.2 * (b - a)] and [b + 0.2 * (b - a)] (binary64
    arithmetic), the selector is asked the range between the two datetimes
    obtained; from 4.5 to 13.5 the bounds converted are 2.7 and 15.3, and
    the selector is asked the range between their datetimes. *)
Theorem margin_expansion (earlier : list item) (a b : float)
  (start stop : datetime) (w : world) :
  fromtimestamp (a - 0.2 * (b - a))%float = inr start ->
  fromtimestamp (b + 0.2 * (b - a))%float = inr stop ->
  queried (snd (iteration sel (prefilled earlier (Some a, Some b)) w)) =
    queried w ++ [SelectRange (XDatetime start) (XDatetime stop)] /\
  queried (snd (iteration sel (prefilled earlier (Some 4.5, Some 13.5)%float) w)) =
    queried w ++
    match fromtimestamp 2.7%float, fromtimestamp 15.3%float with
    | inr start', inr stop' =>
        [SelectRange (XDatetime start') (XDatetime stop')]
    | _, _ => []
    end.
Proof.
  intros Ha Hb. split; rewrite queried_bounded.
  - fold MARGIN in Ha, Hb. rewrite Ha, Hb. reflexivity.
  - reflexivity.
Qed.

(** C3, as amended.  When the subscription of the surviving request has an
    empty X sequence the worker sends nothing, for this request or later; and
    in every run each response sent is a stop acknowledgement or carries at
    least one X value: no response stands for an empty selection. *)
Theorem empty_selection_unanswered (earlier : list item) (it : item) (q : query)
  (later : list backlog) (w : world) (inbox : list backlog) (w0 : world) :
  translate it = inr q ->
  xs (sel q) = [] ->
  sent (snd (loop sel (prefilled earlier it :: later) w)) = sent w /\
  exists rs,
    sent (snd (loop sel inbox w0)) = sent w0 ++ rs /\ Forall ack_or_nonempty rs.
Proof.
  intros Ht Hxs. split.
  - rewrite (loop_empty_xs sel earlier it q later w Ht Hxs). reflexivity.
  - destruct (loop_effects sel inbox w0) as [_ (rs & Hrs & Hsent)].
    eexists. split; [exact Hsent|].
    apply Forall_app. split.
    + apply Forall_map. revert Hrs. apply Forall_impl.
      intros [xs' ys']. exact (fun H => H).
    + destruct (fst (loop sel inbox w0)); repeat constructor.
Qed.

(** C4, malformed request.  When exactly one of the two ends of the
    surviving request is [None], the loop is left by an exception
    ([AssertionError], or [ValueError] under [-O]) and the world is the one
    before the request: nothing was asked of the selector, nothing was sent,
    and the later backlogs are not read. *)
Theorem malformed_request_aborts (earlier : list item) (it : item)
  (later : list backlog) (w : world) :
  is_none (fst it) <> is_none (snd it) ->
  loop sel (prefilled earlier it :: later) w =
    (Raised (if debug then AssertionError malformed_msg
             else ValueError malformed_msg), w).
Proof.
  intros H.
  rewrite loop_cons, iteration_prefilled, iteration_single.
  unfold answer. rewrite (translate_one_sided it H). reflexivity.
Qed.

(** C5, stop protocol.  The worker having answered the backlogs [pre] and
    being back in its blocking receive, a backlog that holds a stop request,
    first or later, makes it send the acknowledgement and return: what it has
    sent since the start is a sequence of answers followed by the one
    acknowledgement, nothing is asked of the selector for that backlog, and
    the backlogs after it are not read. *)
Theorem stop_protocol (pre : list backlog) (b : backlog) (later : list backlog)
  (w : world) :
  In None (messages b) ->
  fst (loop sel pre w) = Blocked ->
  loop sel (pre ++ b :: later) w = (Returned, send None (snd (loop sel pre w))) /\
  exists rs,
    sent (snd (loop sel (pre ++ b :: later) w)) = sent w ++ map Some rs ++ [None].
Proof.
  intros Hstop Hpre.
  assert (Hrun : loop sel (pre ++ b :: later) w =
                 (Returned, send None (snd (loop sel pre w)))).
  { rewrite (loop_app sel pre (b :: later) w Hpre), loop_cons.
    rewrite (iteration_stop sel b _ Hstop). reflexivity. }
  split; [exact Hrun|].
  destruct (loop_effects sel pre w) as [_ (rs & _ & Hsent)].
  rewrite Hpre, app_nil_r in Hsent.
  exists rs. rewrite Hrun. simpl. rewrite Hsent. now rewrite app_assoc.
Qed.

(** C6, at the failing input.  Built as in the class docstring, with the X
    key ["a"] of type [int], the worker answers the request from 4.5 to 13.5
    (whose expanded bounds 2.7 and 15.3 [datetime.fromtimestamp] converts)
    by a subscription whose two bounds are datetimes, not instances of the
    type of the X key. *)
Theorem int_key_gets_datetime_bounds (start stop : datetime) (w : world) :
  fromtimestamp 2.7%float = inr start ->
  fromtimestamp 15.3%float = inr stop ->
  queried (snd (run selector docstring_processor
                  [prefilled [] (Some 4.5, Some 13.5)%float] w)) =
    queried w ++ [SelectRange (XDatetime start) (XDatetime stop)] /\
  isinstance (XDatetime start) (snd (x_and_type docstring_processor)) = false /\
  isinstance (XDatetime stop) (snd (x_and_type docstring_processor)) = false.
Proof.
  intros Ha Hb. split; [|split; reflexivity].
  unfold run. rewrite loop_one, queried_bounded.
  change (4.5 - MARGIN * (13.5 - 4.5))%float with 2.7%float.
  change (13.5 + MARGIN * (13.5 - 4.5))%float with 15.3%float.
  rewrite Ha, Hb. reflexivity.
Qed.



(** C9, empty X sequence.  When the subscription of the surviving request
    has an empty X sequence, the unpacking of its first element fails and
    the [ValueError] leaves the loop: the subscription was made, nothing is
    sent, and the later backlogs are not read. *)
Theorem empty_xs_propagates (earlier : list item) (it : item) (q : query)
  (later : list backlog) (w : world) :
  translate it = inr q ->
  xs (sel q) = [] ->
  normalize_xs (xs (sel q)) = inl (ValueError unpack_msg) /\
  loop sel (prefilled earlier it :: later) w =
    (Raised (ValueError unpack_msg), ask q w) /\
  sent (ask q w) = sent w.
Proof.
  intros Ht Hxs. split; [|split].
  - rewrite Hxs. reflexivity.
  - now apply loop_empty_xs.
  - reflexivity.
Qed.

(** C10, implicit Y typing.  The constructor takes the names of the Y keys
    only; whatever the selector and the messages, [run] opens the selector
    once, with these names in order, each paired with [float]. *)
Theorem ys_opened_as_float (self : BackgroundProcessor) (inbox : list backlog)
  (w : world) :
  opened (snd (run selector self inbox w)) = opened w ++ [selector_call self] /\
  map fst (sel_ys_and_types (selector_call self)) = ys self /\
  Forall (fun yt => snd yt = TFloat) (sel_ys_and_types (selector_call self)).
Proof.
  split; [|split].
  - unfold run.
    destruct (loop_effects (selector (selector_call self)) inbox
                (open_selector (selector_call self) w)) as [Hop _].
    rewrite Hop. reflexivity.
  - simpl. rewrite map_map. simpl. apply map_id.
  - simpl. apply Forall_map. apply Forall_forall. reflexivity.
Qed.

End Claims.

(** ** The properties at concrete inputs *)

(** C3: the datetime table has no row between the datetimes of 80 and 220;
    asked the range from 100 to 200, the worker raises and sends nothing,
    where the claim has it send a response. *)
Lemma empty_selection_counterexample :
  xs (table_selector true (datetime_table true)
        (SelectRange (at_time true 80) (at_time true 220))) = [] /\
  loop (py := posix true) (table_selector true (datetime_table true))
       [prefilled [] (Some 100, Some 200)%float] no_effect =
    (Raised (ValueError unpack_msg),
     {| opened := [];
        queried := [SelectRange (at_time true 80) (at_time true 220)];
        sent := [] |}).
Proof. split; reflexivity. Qed.

Lemma empty_selection_unanswered_witness :
  sent (snd (loop (py := posix true) (table_selector true (datetime_table true))
               [prefilled [] (Some 100, Some 200)%float] no_effect)) = [] /\
  exists rs,
    sent (snd (loop (py := posix true) (table_selector true (datetime_table true))
                 [prefilled [] (None, None)] no_effect)) = [] ++ rs /\
    Forall ack_or_nonempty rs.
Proof.
  apply (empty_selection_unanswered (py := posix true)
           (table_selector true (datetime_table true))
           [] (Some 100, Some 200)%float
           (SelectRange (at_time true 80) (at_time true 220)) [] no_effect
           [prefilled [] (None, None)] no_effect).
  - reflexivity.
  - reflexivity.
Defined.

Lemma malformed_request_aborts_witness :
  is_none (fst (Some 4.5%float, @None float)) <>
  is_none (snd (Some 4.5%float, @None float)) /\
  loop (py := posix true) (table_selector true docstring_table)
       [prefilled [(None, None)] (Some 4.5%float, None);
        prefilled [] (None, None)] no_effect =
    (Raised (AssertionError malformed_msg), no_effect).
Proof.
  split; [discriminate|].
  apply (malformed_request_aborts (py := posix true)).
  discriminate.
Defined.

(** C2: from 0 to 1e18 the lower bound expanded is -2e17, which
    [localtime] cannot break down; from NaN to NaN the bounds are NaN.  In
    both cases [datetime.fromtimestamp] raises and the selector is asked
    nothing, where the claim has it asked the expanded range. *)
Lemma margin_expansion_counterexample :
  loop (py := posix true) (table_selector true (datetime_table true))
       [prefilled [] (Some 0, Some 1e18)%float] no_effect =
    (Raised (OSError "[Errno 75] Value too large for defined data type"),
     {| opened := []; queried := []; sent := [] |}) /\
  loop (py := posix true) (table_selector true (datetime_table true))
       [prefilled [] (Some PrimFloat.nan, Some PrimFloat.nan)] no_effect =
    (Raised (ValueError "cannot convert float NaN to integer"),
     {| opened := []; queried := []; sent := [] |}).
Proof. split; reflexivity. Qed.

Lemma margin_expansion_witness :
  queried (snd (iteration (py := posix true)
                  (table_selector true (datetime_table true))
                  (prefilled [(None, None)] (Some 4.5, Some 13.5)%float)
                  no_effect)) =
    [] ++ [SelectRange (at_time true 2.7) (at_time true 15.3)] /\
  queried (snd (iteration (py := posix true)
                  (table_selector true (datetime_table true))
                  (prefilled [(None, None)] (Some 4.5, Some 13.5)%float)
                  no_effect)) =
    [] ++ [SelectRange (at_time true 2.7) (at_time true 15.3)].
Proof.
  apply (margin_expansion (py := posix true)
           (table_selector true (datetime_table true))
           [(None, None)] 4.5%float 13.5%float 2.7%float 15.3%float no_effect).
  - reflexivity.
  - reflexivity.
Defined.

Lemma int_key_gets_datetime_bounds_witness :
  queried (snd (run (py := posix true) (fun _ => table_selector true docstring_table)
                  docstring_processor
                  [prefilled [] (Some 4.5, Some 13.5)%float] no_effect)) =
    [] ++ [SelectRange (at_time true 2.7) (at_time true 15.3)] /\
  isinstance (at_time true 2.7) (snd (x_and_type docstring_processor)) = false /\
  isinstance (at_time true 15.3) (snd (x_and_type docstring_processor)) = false.
Proof.
  apply (int_key_gets_datetime_bounds (py := posix true)
           (fun _ => table_selector true docstring_table)
           2.7%float 15.3%float no_effect).
  - reflexivity.
  - reflexivity.
Defined.

Lemma stop_protocol_witness :
  loop (py := posix true) (table_selector true docstring_table)
       ([prefilled [] (None, None)] ++
        (Some (Some 4.5, Some 13.5)%float, [None; Some (None, None)]) ::
        [prefilled [] (None, None)]) no_effect =
    (Returned,
     send None
       (snd (loop (py := posix true) (table_selector true docstring_table)
               [prefilled [] (None, None)] no_effect))) /\
  exists rs,
    sent (snd (loop (py := posix true) (table_selector true docstring_table)
                 ([prefilled [] (None, None)] ++
                  (Some (Some 4.5, Some 13.5)%float, [None; Some (None, None)]) ::
                  [prefilled [] (None, None)]) no_effect)) =
      [] ++ map Some rs ++ [None].
Proof.
  apply (stop_protocol (py := posix true)).
  - simpl. right. left. reflexivity.
  - reflexivity.
Defined.



(** Outside the provider's contract: the first key of the mixed table is
    temporal and the second is not; the conversion of the second raises and
    nothing is sent. *)
Lemma mixed_xs_raise :
  normalize_xs (py := posix true) (xs (mixed_table true)) =
    inl (AttributeError "'float' object has no attribute 'timestamp'") /\
  loop (py := posix true) (table_selector true (mixed_table true))
       [prefilled [] (None, None)] no_effect =
    (Raised (AttributeError "'float' object has no attribute 'timestamp'"),
     {| opened := []; queried := [SelectAll]; sent := [] |}).
Proof. split; reflexivity. Qed.


Lemma empty_xs_propagates_witness :
  normalize_xs (py := posix true)
    (xs (table_selector true (datetime_table true)
           (SelectRange (at_time true 80) (at_time true 220)))) =
    inl (ValueError unpack_msg) /\
  loop (py := posix true) (table_selector true (datetime_table true))
       [prefilled [(None, None)] (Some 100, Some 200)%float;
        prefilled [] (None, None)] no_effect =
    (Raised (ValueError unpack_msg),
     ask (SelectRange (at_time true 80) (at_time true 220)) no_effect) /\
  sent (ask (py := posix true)
          (SelectRange (at_time true 80) (at_time true 220)) no_effect) = [].
Proof.
  apply (empty_xs_propagates (py := posix true)
           (table_selector true (datetime_table true))
           [(None, None)] (Some 100, Some 200)%float
           (SelectRange (at_time true 80) (at_time true 220))
           [prefilled [] (None, None)] no_effect).
  - reflexivity.
  - reflexivity.
Defined.

(** ** Runs as a whole *)

Section Runs.

Context {py : Interpreter}.
Variable sel : query -> Selected.

Lemma translate_inr (it : item) (q : query) :
  translate it = inr q ->
  (it = (None, None) /\ q = SelectAll) \/
  exists a b start stop,
    it = (Some a, Some b) /\
    fromtimestamp (a - MARGIN * (b - a)) = inr start /\
    fromtimestamp (b + MARGIN * (b - a)) = inr stop /\
    q = SelectRange (XDatetime start) (XDatetime stop).
Proof.
  destruct it as [[a|] [b|]]; intros H.
  - rewrite translate_two_sided in H.
    destruct (fromtimestamp (a - MARGIN * (b - a))) as [e|start] eqn:Ha;
      [discriminate H|].
    destruct (fromtimestamp (b + MARGIN * (b - a))) as [e|stop] eqn:Hb;
      [discriminate H|].
    injection H as <-. right. now exists a, b, start, stop.
  - rewrite (translate_one_sided (Some a, None)) in H; [discriminate H|].
    discriminate.
  - rewrite (translate_one_sided (None, Some b)) in H; [discriminate H|].
    discriminate.
  - rewrite translate_unbounded in H. injection H as <-. now left.
Qed.

Lemma translate_datetime_bounds (it : item) (q : query) :
  translate it = inr q -> datetime_bounds q.
Proof.
  intros H.
  destruct (translate_inr it q H) as [[_ ->]|(a & b & start & stop & _ & _ & _ & ->)];
    exact I.
Qed.

(** What a run adds to the two logs: the subscriptions [qs] that were
    answered by [rs], then at most one subscription whose X sequence could
    not be normalized, and the acknowledgement when the loop returns. *)
Lemma loop_trace (inbox : list backlog) (w : world) :
  exists qs rs unanswered,
    queried (snd (loop sel inbox w)) = queried w ++ qs ++ unanswered /\
    sent (snd (loop sel inbox w)) =
      sent w ++ map Some rs ++
      match fst (loop sel inbox w) with Returned => [None] | _ => [] end /\
    Forall2 (answers sel) qs rs /\
    (unanswered = [] \/
     exists q e, unanswered = [q] /\ normalize_xs (xs (sel q)) = inl e /\
                 fst (loop sel inbox w) = Raised e) /\
    Forall datetime_bounds (qs ++ unanswered) /\
    (match fst (loop sel inbox w) with
     | Blocked => List.length rs = List.length inbox
     | _ => List.length rs < List.length inbox
     end).
Proof.
  revert w. induction inbox as [|b later IH]; intros w.
  - exists [], [], []. simpl. rewrite !app_nil_r.
    repeat split; auto; constructor.
  - rewrite loop_cons.
    destruct (iteration_survivor sel b w) as [Hstop|(it & _ & _ & Hit)].
    + rewrite (iteration_stop sel b w Hstop).
      exists [], [], []. simpl. rewrite !app_nil_r.
      split; [reflexivity|]. split; [reflexivity|]. split; [constructor|].
      split; [now left|]. split; [constructor | apply Nat.lt_0_succ].
    + rewrite Hit, iteration_single.
      destruct (answer_answered sel it w) as [e _|q e Ht Hn|q xs' Ht Hn].
      * exists [], [], []. simpl. rewrite !app_nil_r.
        split; [reflexivity|]. split; [reflexivity|]. split; [constructor|].
        split; [now left|]. split; [constructor | apply Nat.lt_0_succ].
      * exists [], [], [q]. simpl. rewrite !app_nil_r.
        split; [reflexivity|]. split; [reflexivity|]. split; [constructor|].
        split; [right; now exists q, e|].
        split; [|apply Nat.lt_0_succ].
        constructor; [|constructor].
        exact (translate_datetime_bounds it q Ht).
      * destruct (IH (send (Some (xs', name_to_y (sel q))) (ask q w)))
          as (qs & rs & un & Hq & Hs & Hans & Hun & Hdt & Hlen).
        exists (q :: qs), ((xs', name_to_y (sel q)) :: rs), un.
        split; [|split; [|split; [|split; [|split]]]].
        -- rewrite Hq. simpl. now rewrite <- app_assoc.
        -- rewrite Hs. simpl. now rewrite <- app_assoc.
        -- constructor; [|exact Hans]. split; [exact Hn | reflexivity].
        -- exact Hun.
        -- simpl. constructor; [|exact Hdt].
           exact (translate_datetime_bounds it q Ht).
        -- simpl.
           destruct (fst (loop sel later
                            (send (Some (xs', name_to_y (sel q))) (ask q w))));
             [apply -> Nat.succ_lt_mono; exact Hlen
             |apply -> Nat.succ_lt_mono; exact Hlen
             |now f_equal].
Qed.

Lemma loop_app_exited (pre post : list backlog) (w : world) :
  fst (loop sel pre w) <> Blocked ->
  loop sel (pre ++ post) w = loop sel pre w.
Proof.
  revert w. induction pre as [|b pre IH]; intros w H.
  - simpl in H. now elim H.
  - rewrite <- app_comm_cons, !loop_cons in *.
    destruct (iteration sel b w) as [[ex|] w']; [reflexivity | now apply IH].
Qed.

Lemma loop_exited (inbox : list backlog) (w : world) :
  fst (loop sel inbox w) <> Blocked ->
  exists pre b post,
    inbox = pre ++ b :: post /\
    fst (loop sel pre w) = Blocked /\
    iteration sel b (snd (loop sel pre w)) =
      (Some (fst (loop sel inbox w)), snd (loop sel inbox w)).
Proof.
  revert w. induction inbox as [|b later IH]; intros w H.
  - simpl in H. now elim H.
  - rewrite loop_cons in H.
    destruct (iteration sel b w) as [[ex|] w'] eqn:Hit.
    + exists [], b, later. rewrite loop_cons, Hit. simpl. now rewrite Hit.
    + destruct (IH w' H) as (pre & b' & post & Heq & Hpre & Hb).
      exists (b :: pre), b', post.
      rewrite !loop_cons, Hit. subst later. now repeat split.
Qed.

Lemma loop_blocked_no_stop (inbox : list backlog) (w : world) :
  fst (loop sel inbox w) = Blocked ->
  Forall (fun b => ~ In None (messages b)) inbox.
Proof.
  revert w. induction inbox as [|b later IH]; intros w H; [constructor|].
  rewrite loop_cons in H.
  destruct (iteration_survivor sel b w) as [Hstop|(it & Hno & _ & Hit)].
  - rewrite (iteration_stop sel b w Hstop) in H. discriminate H.
  - constructor; [exact Hno|].
    destruct (iteration sel b w) as [[ex|] w'] eqn:Hb.
    + pose proof (iteration_not_blocked sel b w) as Hnb.
      rewrite Hb in Hnb. simpl in H, Hnb. subst ex. now elim Hnb.
    + exact (IH w' H).
Qed.



(** X1.  A run over [pre ++ post] is the run over [pre], continued over
    [post] from the world reached when the worker is back in its blocking
    receive, and the run over [pre] alone when the loop was left: what
    arrives after a return or an exception has no effect. *)
Theorem loop_app_exit (pre post : list backlog) (w : world) :
  loop sel (pre ++ post) w =
    match fst (loop sel pre w) with
    | Blocked => loop sel post (snd (loop sel pre w))
    | _ => loop sel pre w
    end.
Proof.
  destruct (fst (loop sel pre w)) eqn:H.
  - apply loop_app_exited. rewrite H. discriminate.
  - apply loop_app_exited. rewrite H. discriminate.
  - now apply loop_app.
Qed.


(** X3.  When the loop is neither returned from nor left by an exception,
    no backlog held a stop request and each backlog got one subscription and
    one answer, however many requests it held. *)
Theorem one_answer_per_backlog (inbox : list backlog) (w : world) :
  fst (loop sel inbox w) = Blocked ->
  Forall (fun b => ~ In None (messages b)) inbox /\
  List.length (queried (snd (loop sel inbox w))) =
    List.length (queried w) + List.length inbox /\
  List.length (sent (snd (loop sel inbox w))) =
    List.length (sent w) + List.length inbox.
Proof.
  intros H. split; [exact (loop_blocked_no_stop inbox w H)|].
  destruct (loop_trace inbox w) as (qs & rs & un & Hq & Hs & Hans & Hun & _ & Hlen).
  rewrite H in Hs, Hlen, Hun.
  destruct Hun as [->|(q & e & _ & _ & Hr)]; [|discriminate Hr].
  rewrite Hq, Hs, !length_app, length_map. simpl.
  rewrite (Forall2_length Hans). lia.
Qed.

(** X4.  Whatever the run, the worker makes at most one subscription and
    sends at most one message for each backlog it was given. *)
Theorem at_most_one_per_backlog (inbox : list backlog) (w : world) :
  List.length (queried (snd (loop sel inbox w))) <=
    List.length (queried w) + List.length inbox /\
  List.length (sent (snd (loop sel inbox w))) <=
    List.length (sent w) + List.length inbox.
Proof.
  destruct (loop_trace inbox w) as (qs & rs & un & Hq & Hs & Hans & Hun & _ & Hlen).
  rewrite Hq, Hs, !length_app, length_map, (Forall2_length Hans).
  destruct Hun as [->|(q & e & -> & _ & Hr)].
  - destruct (fst (loop sel inbox w)); simpl; lia.
  - rewrite Hr in *. simpl. lia.
Qed.

(** X5.  Normalization keeps the number of X values: the X sequence sent
    is as long as the one selected, and stays aligned with the Y series. *)
Theorem normalize_xs_length (l l' : list xval) :
  normalize_xs l = inr l' -> List.length l' = List.length l.
Proof.
  destruct l as [|x rest]; unfold normalize_xs; [discriminate|].
  destruct (isinstance_datetime x); intros H.
  - exact (timestamps_length (x :: rest) l' H).
  - injection H as <-. reflexivity.
Qed.



(** X8.  What is sent once can be sent again: a normalized X sequence starts
    with a value that is not temporal, and normalizing it leaves it as it
    is. *)
Theorem normalize_xs_idempotent (l l' : list xval) :
  normalize_xs l = inr l' ->
  normalize_xs l' = inr l' /\
  exists x rest, l' = x :: rest /\ isinstance_datetime x = false.
Proof.
  destruct l as [|x rest]; unfold normalize_xs; [discriminate|].
  destruct (isinstance_datetime x) eqn:Hx; intros H.
  - destruct x as [z|f|d]; try discriminate Hx.
    simpl in H. destruct (timestamps rest) as [e|ts]; [discriminate H|].
    injection H as <-. split; [reflexivity|].
    now exists (XFloat (timestamp d)), ts.
  - injection H as <-. rewrite Hx. split; [reflexivity|].
    now exists x, rest.
Qed.

(** X9.  A subscription is made exactly for the full range (both ends
    [None]) and for a range with both ends set whose two bounds, the ends
    moved apart by [MARGIN] times their distance, [datetime.fromtimestamp]
    converts; the bounds of the subscription are then the two datetimes.
    This does not depend on [-O], which only changes the exception raised
    for a one-sided item. *)
Theorem translate_ok_iff (it : item) (q : query) :
  translate it = inr q <->
  (it = (None, None) /\ q = SelectAll) \/
  exists a b start stop,
    it = (Some a, Some b) /\
    fromtimestamp (a - MARGIN * (b - a)) = inr start /\
    fromtimestamp (b + MARGIN * (b - a)) = inr stop /\
    q = SelectRange (XDatetime start) (XDatetime stop).
Proof.
  split; [apply translate_inr|].
  intros [[-> ->]|(a & b & start & stop & -> & Ha & Hb & ->)].
  - apply translate_unbounded.
  - now apply translate_bounded.
Qed.

(** X10.  The loop returns only on a stop request: if a run has returned,
    the worker was back in its blocking receive when a backlog holding a
    stop request came. *)
Theorem returns_only_on_stop (inbox : list backlog) (w : world) :
  fst (loop sel inbox w) = Returned ->
  exists pre b post,
    inbox = pre ++ b :: post /\
    fst (loop sel pre w) = Blocked /\
    In None (messages b).
Proof.
  intros H.
  destruct (loop_exited inbox w) as (pre & b & post & Heq & Hpre & Hb).
  { rewrite H. discriminate. }
  exists pre, b, post. split; [exact Heq|]. split; [exact Hpre|].
  rewrite H in Hb.
  destruct (iteration_survivor sel b (snd (loop sel pre w)))
    as [Hstop|(it & _ & _ & Hit)]; [exact Hstop|].
  rewrite Hit, iteration_single in Hb.
  destruct (answer sel it (snd (loop sel pre w))) as [[e|] w']; discriminate Hb.
Qed.


(** X12.  Whatever the type of the X key, every subscription of a run is the
    full one or a range whose two bounds are datetimes. *)
Theorem bounds_always_datetimes (inbox : list backlog) (w : world) :
  exists qs,
    queried (snd (loop sel inbox w)) = queried w ++ qs /\
    Forall datetime_bounds qs.
Proof.
  destruct (loop_trace inbox w) as (qs & rs & un & Hq & _ & _ & _ & Hdt & _).
  now exists (qs ++ un).
Qed.

(** X13.  A whole run over backlogs of requests is the run over the last
    request of each: the superseded requests, malformed or not, change
    neither the exit nor what is asked and sent. *)
Theorem run_coalesces (l : list (list item * item)) (w : world) :
  loop sel (map backlog_of l) w = loop sel (map last_only l) w.
Proof.
  revert w. induction l as [|p l IH]; intros w; [reflexivity|].
  simpl map. rewrite !loop_cons.
  unfold backlog_of at 1, last_only at 1.
  rewrite (iteration_prefilled sel (fst p) (snd p) w).
  change (prefilled [] (snd p)) with (Some (snd p), @nil message).
  destruct (iteration sel (Some (snd p), []) w) as [[ex|] w'];
    [reflexivity | apply IH].
Qed.

End Runs.

(** ** Runs at concrete inputs *)

Lemma one_answer_per_backlog_witness :
  Forall (fun b => ~ In None (messages b))
    [prefilled [(Some 1%float, None)] (None, None);
     prefilled [] (Some 4.5, Some 13.5)%float] /\
  List.length
    (queried (snd (loop (py := posix true)
                     (table_selector true (datetime_table true))
                     [prefilled [(Some 1%float, None)] (None, None);
                      prefilled [] (Some 4.5, Some 13.5)%float]
                     no_effect))) = 0 + 2 /\
  List.length
    (sent (snd (loop (py := posix true)
                  (table_selector true (datetime_table true))
                  [prefilled [(Some 1%float, None)] (None, None);
                   prefilled [] (Some 4.5, Some 13.5)%float]
                  no_effect))) = 0 + 2.
Proof.
  apply (one_answer_per_backlog (py := posix true)
           (table_selector true (datetime_table true))
           [prefilled [(Some 1%float, None)] (None, None);
            prefilled [] (Some 4.5, Some 13.5)%float] no_effect).
  reflexivity.
Defined.

Lemma normalize_xs_length_witness :
  List.length [XFloat (py := posix true) 1; XFloat 5; XFloat 9; XFloat 13;
               XFloat 17]%float =
  List.length (xs (datetime_table true)).
Proof.
  apply (normalize_xs_length (py := posix true) (xs (datetime_table true))).
  reflexivity.
Defined.


Lemma normalize_xs_idempotent_witness :
  normalize_xs (py := posix true)
    [XFloat 1; XFloat 5; XFloat 9; XFloat 13; XFloat 17]%float =
    inr [XFloat 1; XFloat 5; XFloat 9; XFloat 13; XFloat 17]%float /\
  exists x rest,
    [XFloat (py := posix true) 1; XFloat 5; XFloat 9; XFloat 13;
     XFloat 17]%float = x :: rest /\
    isinstance_datetime x = false.
Proof.
  apply (normalize_xs_idempotent (py := posix true) (xs (datetime_table true))).
  reflexivity.
Defined.

Lemma returns_only_on_stop_witness :
  exists pre b post,
    [prefilled [] (None, None); (Some (None, None), [None])] =
      pre ++ b :: post /\
    fst (loop (py := posix true) (table_selector true (datetime_table true))
           pre no_effect) = Blocked /\
    In None (messages b).
Proof.
  apply (returns_only_on_stop (py := posix true)
           (table_selector true (datetime_table true))
           [prefilled [] (None, None); (Some (None, None), [None])] no_effect).
  reflexivity.
Defined.

